(** * libagent/device/trezor.py: the TREZOR device wrapper

    A shallow embedding of the [Trezor] class: the three operations
    ([pubkey], [sign], [ecdh]), the identity encoder [_identity_proto] and
    [connect] with its two callbacks.  Everything the class reaches through
    [self._defs], [self.conn], [os.environ] and [semver] is outside the file
    and appears here as data: a [Client] record answering the device calls, a
    [World] record answering enumeration, open, handshake and ping, and a
    version-matching function.  Logging is left out. *)

From Stdlib Require Import String Ascii List NArith DecimalString Lia.
From Stdlib Require Import DecimalPos DecimalN.
From Stdlib.Strings Require Import Byte.
From stdpp Require Import base option list gmap strings.

Local Open Scope string_scope.
Local Open Scope list_scope.

(** ** Bytes *)

(** Python [bytes]: [len], [b[:1]] and [b[1:]] are [length], [take 1] and
    [drop 1]. *)
Abbreviation bytes := (list byte).

#[global] Instance byte_eq_decision : EqDecision byte := byte_eq_dec.

(** ** Exceptions *)

(** The exception classes the file raises, catches or lets through.
    [CallException] is [trezor_defs.CallException] and carries [str(e)];
    [ProtocolError] is what assigning an unknown field of a message raises;
    [OtherException] stands for any further subclass of [Exception]
    (transport failures and the like); [KeyboardInterrupt] derives from
    [BaseException] only. *)
Inductive exn : Type :=
| AssertionError
| CallException (text : string)
| DeviceError (msg : string)
| NotFoundError (msg : string)
| ValueError (msg : string)
| ProtocolError (field : string)
| OtherException (text : string)
| KeyboardInterrupt.

(** [except self._defs.CallException as e] *)
Definition is_CallException (e : exn) : bool :=
  match e with CallException _ => true | _ => false end.

(** [except Exception as e] *)
Definition is_Exception (e : exn) : bool :=
  match e with KeyboardInterrupt => false | _ => true end.

(** [str(e)] for the exceptions whose text the file formats. *)
Definition exn_str (e : exn) : string :=
  match e with
  | AssertionError => ""
  | CallException t | DeviceError t | NotFoundError t | ValueError t
  | ProtocolError t | OtherException t => t
  | KeyboardInterrupt => ""
  end.

(** ** Computations that return or raise *)

Inductive outcome (A : Type) : Type :=
| Return (a : A)
| Raise (e : exn).
Arguments Return {A} a.
Arguments Raise {A} e.

#[global] Instance outcome_ret : MRet outcome := @Return.
#[global] Instance outcome_bind : MBind outcome := fun A B f m =>
  match m with Return a => f a | Raise e => Raise e end.

(** [assert c] (assertions enabled, the interpreter's default). *)
Definition assert (c : bool) : outcome unit :=
  if c then Return tt else Raise AssertionError.

(** [try: body / except <caught> as e: handler e] *)
Definition try_except {A} (body : outcome A) (caught : exn -> bool)
    (handler : exn -> outcome A) : outcome A :=
  match body with
  | Return a => Return a
  | Raise e => if caught e then handler e else Raise e
  end.

(** [s] occurs in [t]. *)
Definition occurs (s t : string) : Prop :=
  exists a b, t = a +:+ s +:+ b.

(** ** Messages and collaborators *)

(** A protobuf message seen through its named fields. *)
Abbreviation message := (gmap string string).

Record SignedIdentity := { signature : bytes }.
Record ECDHSessionKey := { session_key : bytes }.
Record HDNodeType := { public_key : bytes }.
Record PublicKey := { node : HDNodeType; xpub : string }.
Record PassphraseAck := { ack_passphrase : string }.

(** The identity object of [interface.Identity], through the four methods
    the file calls. *)
Record Identity := {
  items : list (string * string);
  get_curve_name : bool -> string;
  get_bip32_address : bool -> list N;
  to_string : string
}.

(** A transport endpoint, as [Transport.enumerate()] yields it. *)
Abbreviation Endpoint := string.

(** [connection.features]: the snapshot the handshake returns. *)
Record Features := {
  device_id : string;
  label : string;
  vendor : string;
  major_version : N;
  minor_version : N;
  patch_version : N;
  revision : bytes
}.

(** The request contexts the device sends while it is being unlocked. *)
Record PassphraseRequest := { passphrase_context : bytes }.

(** A PIN callback: the client's own terminal handler, or the Qt dialog of
    [connect]. *)
Inductive PinHandler : Type :=
| cli_handler
| qt_handler.

(** The client object ([self._defs.Client], later [self.conn]): the
    transport it holds, its features, its two callback slots and the three
    device calls the file makes; each call answers with a response or
    raises. *)
Record Client := {
  transport : Endpoint;
  features : Features;
  callback_PassphraseRequest : PassphraseRequest -> PassphraseAck;
  callback_PinMatrixRequest : PinHandler;
  get_public_node : list N -> string -> outcome PublicKey;
  sign_identity : message -> bytes -> string -> string -> outcome SignedIdentity;
  get_ecdh_session_key : message -> bytes -> string -> outcome ECDHSessionKey
}.

(** The device object: [str(self)], the class attribute [passphrase] and
    the connection. *)
Record Trezor := {
  self_str : string;
  passphrase : string;
  conn : Client
}.

(** [os.environ.get('TREZOR_PASSPHRASE', '')], evaluated once when the class
    is created. *)
Definition class_passphrase (environ : gmap string string) : string :=
  default "" (environ !! "TREZOR_PASSPHRASE").

(** Modelled from the spec: attribute assignment on the outgoing message
    type [trezor_defs.IdentityType], which is not in the file.  A legal field
    name is set; an unknown one is rejected with [ProtocolError]. *)
Definition setattr (fields : gset string) (m : message) (name value : string)
    : outcome message :=
  if decide (name ∈ fields) then Return (<[name := value]> m)
  else Raise (ProtocolError name).

Section Operations.

(** The legal field names of [IdentityType]. *)
Variable IdentityType_fields : gset string.

(** [for name, value in identity.items(): setattr(result, name, value)] *)
Fixpoint set_items (result : message) (l : list (string * string))
    : outcome message :=
  match l with
  | [] => Return result
  | (name, value) :: l' =>
      result' ← setattr IdentityType_fields result name value;
      set_items result' l'
  end.

Definition _identity_proto (self : Trezor) (identity : Identity)
    : outcome message :=
  set_items ∅ (items identity).

Definition pubkey (self : Trezor) (identity : Identity) (ecdh : bool)
    : outcome bytes :=
  let curve_name := get_curve_name identity ecdh in
  let addr := get_bip32_address identity ecdh in
  result ← get_public_node (conn self) addr curve_name;
  mret (public_key (node result)).

Definition sign (self : Trezor) (identity : Identity) (blob : bytes)
    : outcome bytes :=
  let curve_name := get_curve_name identity false in
  try_except
    (proto ← _identity_proto self identity;
     result ← sign_identity (conn self) proto blob "" curve_name;
     _ ← assert (bool_decide (length (signature result) = 65));
     _ ← assert (bool_decide (take 1 (signature result) = [x00]));
     mret (drop 1 (signature result)))
    is_CallException
    (fun e =>
       let msg := self_str self +:+ " error: " +:+ exn_str e in
       Raise (DeviceError msg)).

Definition ecdh (self : Trezor) (identity : Identity) (pubkey : bytes)
    : outcome bytes :=
  let curve_name := get_curve_name identity true in
  try_except
    (proto ← _identity_proto self identity;
     result ← get_ecdh_session_key (conn self) proto pubkey curve_name;
     _ ← assert (bool_decide (length (session_key result) = 65
                              \/ length (session_key result) = 33));
     _ ← assert (bool_decide (take 1 (session_key result) = [x04]));
     mret (session_key result))
    is_CallException
    (fun e =>
       let msg := self_str self +:+ " error: " +:+ exn_str e in
       Raise (DeviceError msg)).

End Operations.

(** ** Connecting *)

(** What [connect] does to channels, in order. *)
Inductive event : Type :=
| EvOpen (d : Endpoint)
| EvHandshake (d : Endpoint)
| EvPing (d : Endpoint)
| EvClose (d : Endpoint).

Definition event_endpoint (ev : event) : Endpoint :=
  match ev with EvOpen d | EvHandshake d | EvPing d | EvClose d => d end.

#[global] Instance event_eq_decision : EqDecision event.
Proof. solve_decision. Defined.

(** Whether the channel to [d] is held open after the events [tr]. *)
Definition is_open (d : Endpoint) (tr : list event) : bool :=
  foldl (fun held ev =>
           match ev with
           | EvOpen d' => if decide (d' = d) then true else held
           | EvClose d' => if decide (d' = d) then false else held
           | _ => held
           end) false tr.

(** Computations that also act on channels: the events so far go in, the
    outcome and the events so far come out. *)
Definition io (A : Type) : Type := list event -> outcome A * list event.

#[global] Instance io_ret : MRet io := fun A a tr => (Return a, tr).
#[global] Instance io_bind : MBind io := fun A B f m tr =>
  match m tr with
  | (Return a, tr') => f a tr'
  | (Raise e, tr') => (Raise e, tr')
  end.

Definition raise {A} (e : exn) : io A := fun tr => (Raise e, tr).

Definition emit (ev : event) : io unit := fun tr => (Return tt, tr ++ [ev]).

(** [try: body / except <caught> as e: handler e] over [io]. *)
Definition io_try_except {A} (body : io A) (caught : exn -> bool)
    (handler : exn -> io A) : io A := fun tr =>
  match body tr with
  | (Return a, tr') => (Return a, tr')
  | (Raise e, tr') => if caught e then handler e tr' else (Raise e, tr')
  end.

(** [for x in l: body x], where the body either falls through to the next
    element ([None]) or executes [return r] ([Some r]). *)
Fixpoint for_each {A R} (body : A -> io (option R)) (l : list A)
    : io (option R) :=
  match l with
  | [] => mret None
  | x :: l' =>
      r ← body x;
      match r with
      | Some v => mret (Some v)
      | None => for_each body l'
      end
  end.

Inductive TransportKind : Type :=
| HidTransport
| BridgeTransport.

(** Everything outside the process that [connect] meets: the environment,
    standard input, and how enumeration, opening, the client's handshake and
    the ping turn out. *)
Record World := {
  environ : gmap string string;
  stdin_closed : bool;
  stdin_isatty : bool;
  enumerate : TransportKind -> list Endpoint;
  open_outcome : TransportKind -> Endpoint -> option exn;
  new_client : Endpoint -> outcome Client;
  ping_outcome : Client -> string -> bool -> outcome string
}.

(** The [_defs] property: the transport class chosen by
    [TREZOR_TRANSPORT]. *)
Definition _defs_Transport (w : World) : TransportKind :=
  default HidTransport
    (name ← environ w !! "TREZOR_TRANSPORT";
     ({[ "bridge" := BridgeTransport ]} : gmap string TransportKind) !! name).

Definition required_version : string := ">=1.4.0".

(** ['{}'.format(n)] for an unsigned integer field. *)
Definition format_N (n : N) : string := NilZero.string_of_uint (N.to_uint n).

Definition with_transport (c : Client) (t : Endpoint) : Client :=
  {| transport := t;
     features := features c;
     callback_PassphraseRequest := callback_PassphraseRequest c;
     callback_PinMatrixRequest := callback_PinMatrixRequest c;
     get_public_node := get_public_node c;
     sign_identity := sign_identity c;
     get_ecdh_session_key := get_ecdh_session_key c |}.

(** The two assignments to the callback slots. *)
Definition with_callbacks (c : Client)
    (on_passphrase : PassphraseRequest -> PassphraseAck)
    (on_pin : PinHandler) : Client :=
  {| transport := transport c;
     features := features c;
     callback_PassphraseRequest := on_passphrase;
     callback_PinMatrixRequest := on_pin;
     get_public_node := get_public_node c;
     sign_identity := sign_identity c;
     get_ecdh_session_key := get_ecdh_session_key c |}.

Section Connect.

(** [semver.match]. *)
Variable semver_match : string -> string -> bool.

Variable w : World.

(** [self._defs.Transport(d)]: opens the channel or raises. *)
Definition Transport_ (d : Endpoint) : io Endpoint :=
  match open_outcome w (_defs_Transport w) d with
  | None => _ ← emit (EvOpen d); mret d
  | Some e => raise e
  end.

(** Modelled from the spec: the constructor [self._defs.Client(transport)]
    of [trezor_defs], which is not in the file.  It performs the handshake
    that fetches the features; when the handshake fails, the connection is
    torn down (the channel is closed) and the error is raised. *)
Definition Client_ (t : Endpoint) : io Client :=
  _ ← emit (EvHandshake t);
  match new_client w t with
  | Return c => mret (with_transport c t)
  | Raise e => _ ← emit (EvClose t); raise e
  end.

Definition ping (connection : Client) (msg : string) (pin_protection : bool)
    : io string :=
  _ ← emit (EvPing (transport connection));
  match ping_outcome w connection msg pin_protection with
  | Return s => mret s
  | Raise e => raise e
  end.

Definition conn_close (connection : Client) : io unit :=
  emit (EvClose (transport connection)).

Definition passphrase_handler (self : Trezor) (_ : PassphraseRequest)
    : PassphraseAck :=
  {| ack_passphrase := passphrase self |}.

Definition create_pin_handler (conn : Client) : PinHandler :=
  if negb (stdin_closed w) && stdin_isatty w
  then callback_PinMatrixRequest conn
  else qt_handler.

(** The body of the loop over the endpoints; it ends in
    [return connection]. *)
Definition connect_body (self : Trezor) (d : Endpoint) : io (option Client) :=
  transport ← Transport_ d;
  connection ← Client_ transport;
  let connection :=
    with_callbacks connection (passphrase_handler self)
      (create_pin_handler connection) in
  let f := features connection in
  let current_version :=
    format_N (major_version f) +:+ "." +:+ format_N (minor_version f)
    +:+ "." +:+ format_N (patch_version f) in
  if negb (semver_match current_version required_version) then
    raise (ValueError ("Please upgrade your " +:+ self_str self
                       +:+ " firmware to " +:+ required_version
                       +:+ " version (current: " +:+ current_version +:+ ")"))
  else
    _ ← io_try_except (ping connection "" true)
          is_Exception
          (fun e => _ ← conn_close connection; raise e);
    mret (Some connection).

Definition connect (self : Trezor) : io Client :=
  r ← for_each (connect_body self) (enumerate w (_defs_Transport w));
  match r with
  | Some connection => mret connection
  | None => raise (NotFoundError (self_str self +:+ " not connected"))
  end.

(** [Trezor.close]. *)
Definition close (self : Trezor) : io unit :=
  conn_close (conn self).

End Connect.

(** The local [current_version] of [connect]:
    ['{}.{}.{}'.format(f.major_version, f.minor_version, f.patch_version)]. *)
Definition current_version (f : Features) : string :=
  format_N (major_version f) +:+ "." +:+ format_N (minor_version f)
  +:+ "." +:+ format_N (patch_version f).

(** ** A version matcher and fixtures *)

(** [s.split(sep)] *)
Fixpoint split_on (sep : ascii) (s : string) : list string :=
  match s with
  | EmptyString => [EmptyString]
  | String c s' =>
      if decide (c = sep) then EmptyString :: split_on sep s'
      else match split_on sep s' with
           | [] => [String c EmptyString]
           | part :: parts => String c part :: parts
           end
  end.

Definition parse_N (s : string) : option N :=
  N.of_uint <$> NilZero.uint_of_string s.

Definition parse_version (s : string) : option (N * N * N) :=
  match split_on "." s with
  | [a; b; c] =>
      x ← parse_N a; y ← parse_N b; z ← parse_N c; Some (x, y, z)
  | _ => None
  end.

(** The numeric triple [x] is lexicographically at least [y]. *)
Definition triple_geb (x y : N * N * N) : bool :=
  let '(x1, x2, x3) := x in
  let '(y1, y2, y3) := y in
  match N.compare x1 y1 with
  | Gt => true
  | Lt => false
  | Eq => match N.compare x2 y2 with
          | Gt => true
          | Lt => false
          | Eq => N.leb y3 x3
          end
  end.

(** Modelled from the spec: the version constraint primitive
    [satisfies(version_string, constraint_string)] that stands for the
    third-party [semver.match], for the [>=] constraints the file uses: true
    iff the version's numeric triple is lexicographically at least the
    constraint's. *)
Definition satisfies (version constraint : string) : bool :=
  match constraint with
  | String ">" (String "=" bound) =>
      match parse_version version, parse_version bound with
      | Some v, Some b => triple_geb v b
      | _, _ => false
      end
  | _ => false
  end.

Module Fixture.

Definition fields : gset string :=
  {[ "proto"; "user"; "host"; "port"; "path"; "index" ]}.

Definition identity : Identity :=
  {| items := [("proto", "ssh"); ("user", "git"); ("host", "example.com")];
     get_curve_name := fun ecdh => if ecdh then "curve25519" else "nist256p1";
     get_bip32_address := fun ecdh => [if ecdh then 17%N else 13%N; 0%N];
     to_string := "ssh://git@example.com" |}.

(** An identity with a field the message type does not have. *)
Definition odd_identity : Identity :=
  {| items := [("proto", "ssh"); ("colour", "red"); ("host", "example.com")];
     get_curve_name := get_curve_name identity;
     get_bip32_address := get_bip32_address identity;
     to_string := "ssh://example.com" |}.

Definition features_of (major minor patch : N) : Features :=
  {| device_id := "0123"; label := "mine"; vendor := "bitcointrezor.com";
     major_version := major; minor_version := minor; patch_version := patch;
     revision := [x2a] |}.

(** A client whose three calls answer as given. *)
Definition client (f : Features) (pk : outcome PublicKey)
    (sig : outcome SignedIdentity) (key : outcome ECDHSessionKey) : Client :=
  {| transport := "";
     features := f;
     callback_PassphraseRequest := fun _ => {| ack_passphrase := "typed" |};
     callback_PinMatrixRequest := cli_handler;
     get_public_node := fun _ _ => pk;
     sign_identity := fun _ _ _ _ => sig;
     get_ecdh_session_key := fun _ _ _ => key |}.

Definition device (pk : outcome PublicKey) (sig : outcome SignedIdentity)
    (key : outcome ECDHSessionKey) : Trezor :=
  {| self_str := "Trezor"; passphrase := "";
     conn := client (features_of 1 4 0) pk sig key |}.

Definition fault : exn := CallException "Action cancelled by user".

Definition signing (sig : bytes) : Trezor :=
  device (Raise fault) (Return {| signature := sig |}) (Raise fault).

Definition agreeing (key : bytes) : Trezor :=
  device (Raise fault) (Raise fault) (Return {| session_key := key |}).

Definition answering (pk : bytes) : Trezor :=
  device (Return {| node := {| public_key := pk |}; xpub := "xpub" |})
    (Raise fault) (Raise fault).

Definition faulty : Trezor := device (Raise fault) (Raise fault) (Raise fault).

Definition blob : bytes := [x01; x02; x03].

(** A client whose device answers every call with a fault. *)
Definition bare_client (f : Features) : Client :=
  client f (Raise fault) (Raise fault) (Raise fault).

(** A world in which every endpoint opens, the handshake reports the
    features [f] and the ping turns out as [pinged]. *)
Definition world (environment : gmap string string)
    (endpoints : list Endpoint) (f : Features) (pinged : outcome string)
    : World :=
  {| environ := environment;
     stdin_closed := false;
     stdin_isatty := true;
     enumerate := fun _ => endpoints;
     open_outcome := fun _ _ => None;
     new_client := fun _ => Return (bare_client f);
     ping_outcome := fun _ _ _ => pinged |}.

Definition endpoints : list Endpoint := ["hid:0001"; "hid:0002"].

(** A world in which every endpoint opens and the handshake fails with
    [e]. *)
Definition silent_world (e : exn) : World :=
  {| environ := ∅;
     stdin_closed := false;
     stdin_isatty := true;
     enumerate := fun _ => endpoints;
     open_outcome := fun _ _ => None;
     new_client := fun _ => Raise e;
     ping_outcome := fun _ _ _ => Return "" |}.

End Fixture.

(** * Properties *)

(** ** Shared lemmas *)

Lemma bind_Return {A B} (f : A -> outcome B) (a : A) :
  mbind f (Return a) = f a.
Proof. reflexivity. Qed.

Lemma bind_Raise {A B} (f : A -> outcome B) (e : exn) :
  mbind f (Raise e) = Raise e.
Proof. reflexivity. Qed.

Lemma assert_holds (P : Prop) `{Decision P} :
  P -> assert (bool_decide P) = Return tt.
Proof. intros HP. by rewrite bool_decide_true. Qed.

Lemma assert_fails (P : Prop) `{Decision P} :
  ~ P -> assert (bool_decide P) = Raise AssertionError.
Proof. intros HP. by rewrite bool_decide_false. Qed.

(** [b[:1] == bytes([x])] says that [b] starts with [x]. *)
Lemma take_1_singleton (b : bytes) (x : byte) :
  take 1 b = [x] <-> b !! 0 = Some x.
Proof.
  destruct b as [|y b']; simpl.
  - split; discriminate.
  - rewrite take_0. split; intros H; by simplify_eq.
Qed.

Lemma occurs_prefix (s t : string) : occurs s (s +:+ t).
Proof. exists "", t. reflexivity. Qed.

Lemma string_app_assoc (a b c : string) : (a +:+ b) +:+ c = a +:+ b +:+ c.
Proof.
  induction a as [|x a IH]; [reflexivity | exact (f_equal (String x) IH)].
Qed.

Lemma string_app_nil_r (a : string) : a +:+ "" = a.
Proof.
  induction a as [|x a IH]; [reflexivity | exact (f_equal (String x) IH)].
Qed.

Lemma occurs_suffix (s t : string) : occurs s (t +:+ s).
Proof. exists t, "". by rewrite string_app_nil_r. Qed.

Lemma occurs_app_r (s a t : string) : occurs s t -> occurs s (a +:+ t).
Proof.
  intros (u & v & ->). exists (a +:+ u), v. by rewrite string_app_assoc.
Qed.

(** A handler that raises [DeviceError] never lets a [CallException] out. *)
Lemma try_except_no_CallException {A} (body : outcome A) (text : string)
    (handler : exn -> outcome A) :
  (forall e, exists msg, handler e = Raise (DeviceError msg)) ->
  try_except body is_CallException handler <> Raise (CallException text).
Proof.
  intros Hh. unfold try_except.
  destruct body as [a|e]; [discriminate|].
  destruct e; simpl; try discriminate.
  destruct (Hh (CallException text0)) as [msg ->]. discriminate.
Qed.

(** ** [sign] *)

(** C1: when the device answers [sign] with a signature of exactly 65 bytes
    whose first byte is 0x00, [sign] returns that signature without its first
    byte: the result has length 64, it is the last 64 bytes of the signature,
    and the signature is 0x00 followed by the result. *)
Theorem sign_strips_prefix (fields : gset string) (self : Trezor)
    (identity : Identity) (blob : bytes) (proto : message)
    (r : SignedIdentity) :
  _identity_proto fields self identity = Return proto ->
  sign_identity (conn self) proto blob "" (get_curve_name identity false)
    = Return r ->
  length (signature r) = 65 ->
  signature r !! 0 = Some x00 ->
  sign fields self identity blob = Return (drop 1 (signature r))
  /\ length (drop 1 (signature r)) = 64
  /\ drop 1 (signature r) = drop (length (signature r) - 64) (signature r)
  /\ signature r = x00 :: drop 1 (signature r).
Proof.
  intros Hproto Hcall Hlen Hfst. repeat split.
  - unfold sign. rewrite Hproto, bind_Return, Hcall, bind_Return.
    rewrite (assert_holds (length _ = 65)), bind_Return by done.
    rewrite assert_holds by (by apply take_1_singleton).
    reflexivity.
  - rewrite length_drop. lia.
  - by rewrite Hlen.
  - destruct (signature r) as [|x s]; simplify_eq/=. by rewrite drop_0.
Qed.

Lemma sign_strips_prefix_witness :
  sign Fixture.fields (Fixture.signing (x00 :: replicate 64 x11))
    Fixture.identity Fixture.blob = Return (replicate 64 x11).
Proof.
  refine (proj1 (sign_strips_prefix Fixture.fields
                   (Fixture.signing (x00 :: replicate 64 x11))
                   Fixture.identity Fixture.blob _
                   {| signature := x00 :: replicate 64 x11 |} _ _ _ _));
    reflexivity.
Defined.

(** C3: when the device answers [sign] with a signature whose length is not
    65, or whose length is 65 but whose first byte is not 0x00, [sign] raises
    the assertion failure (the fatal consistency error); it raises no
    [DeviceError] and returns no value. *)
Theorem sign_rejects_malformed (fields : gset string) (self : Trezor)
    (identity : Identity) (blob : bytes) (proto : message)
    (r : SignedIdentity) :
  _identity_proto fields self identity = Return proto ->
  sign_identity (conn self) proto blob "" (get_curve_name identity false)
    = Return r ->
  length (signature r) <> 65
  \/ (length (signature r) = 65 /\ signature r !! 0 <> Some x00) ->
  sign fields self identity blob = Raise AssertionError
  /\ (forall msg, sign fields self identity blob <> Raise (DeviceError msg))
  /\ (forall v, sign fields self identity blob <> Return v).
Proof.
  intros Hproto Hcall Hbad.
  assert (sign fields self identity blob = Raise AssertionError) as ->.
  { unfold sign. rewrite Hproto, bind_Return, Hcall, bind_Return.
    destruct Hbad as [Hlen | [Hlen Hfst]].
    - by rewrite (assert_fails (length _ = 65)).
    - rewrite (assert_holds (length _ = 65)), bind_Return by done.
      rewrite assert_fails; [reflexivity|]. by rewrite take_1_singleton. }
  repeat split; intros; discriminate.
Qed.

Lemma sign_rejects_malformed_witness :
  sign Fixture.fields (Fixture.signing (replicate 64 x11))
    Fixture.identity Fixture.blob = Raise AssertionError
  /\ sign Fixture.fields (Fixture.signing (x01 :: replicate 64 x11))
       Fixture.identity Fixture.blob = Raise AssertionError.
Proof.
  split.
  - refine (proj1 (sign_rejects_malformed Fixture.fields
                     (Fixture.signing (replicate 64 x11))
                     Fixture.identity Fixture.blob _
                     {| signature := replicate 64 x11 |} _ _ _));
      [reflexivity | reflexivity | left; simpl; lia].
  - refine (proj1 (sign_rejects_malformed Fixture.fields
                     (Fixture.signing (x01 :: replicate 64 x11))
                     Fixture.identity Fixture.blob _
                     {| signature := x01 :: replicate 64 x11 |} _ _ _));
      [reflexivity | reflexivity | right; split; [reflexivity | discriminate]].
Defined.

(** C4: when the device call of [sign] or of [ecdh] raises the device's
    fault ([CallException]) with text [text], the operation raises
    [DeviceError] with the message [str(self) + " error: " + text], in which
    both the device's name and the fault text occur; and whatever happens,
    neither operation lets a [CallException] reach its caller. *)
Theorem device_fault_wrapped (fields : gset string) (self : Trezor)
    (identity : Identity) (blob peer : bytes) (proto : message)
    (text : string) :
  _identity_proto fields self identity = Return proto ->
  let msg := self_str self +:+ " error: " +:+ text in
  (sign_identity (conn self) proto blob "" (get_curve_name identity false)
     = Raise (CallException text) ->
   sign fields self identity blob = Raise (DeviceError msg))
  /\ (get_ecdh_session_key (conn self) proto peer (get_curve_name identity true)
        = Raise (CallException text) ->
      ecdh fields self identity peer = Raise (DeviceError msg))
  /\ occurs (self_str self) msg
  /\ occurs text msg
  /\ (forall t, sign fields self identity blob <> Raise (CallException t))
  /\ (forall t, ecdh fields self identity peer <> Raise (CallException t)).
Proof.
  intros Hproto msg. repeat split.
  - intros Hcall. unfold sign. by rewrite Hproto, bind_Return, Hcall.
  - intros Hcall. unfold ecdh. by rewrite Hproto, bind_Return, Hcall.
  - apply occurs_prefix.
  - apply occurs_app_r, occurs_suffix.
  - intros t. apply try_except_no_CallException. intros e. by eexists.
  - intros t. apply try_except_no_CallException. intros e. by eexists.
Qed.

Lemma device_fault_wrapped_witness :
  sign Fixture.fields Fixture.faulty Fixture.identity Fixture.blob
    = Raise (DeviceError "Trezor error: Action cancelled by user")
  /\ ecdh Fixture.fields Fixture.faulty Fixture.identity Fixture.blob
       = Raise (DeviceError "Trezor error: Action cancelled by user").
Proof.
  pose proof (device_fault_wrapped Fixture.fields Fixture.faulty
                Fixture.identity Fixture.blob Fixture.blob
                _ "Action cancelled by user" eq_refl) as (Hs & He & _).
  split; [apply Hs | apply He]; reflexivity.
Defined.

(** ** [ecdh] *)

(** C2, as the code has it: when the device answers [ecdh] with a session
    key of 65 or of 33 bytes, the key is returned whole and unmodified if
    its first byte is 0x04; if its first byte is not 0x04, [ecdh] raises the
    assertion failure (the fatal consistency error), with no normal return
    and no [DeviceError].  The prefix is checked at both lengths. *)
Theorem ecdh_checks_prefix (fields : gset string) (self : Trezor)
    (identity : Identity) (peer : bytes) (proto : message)
    (r : ECDHSessionKey) :
  _identity_proto fields self identity = Return proto ->
  get_ecdh_session_key (conn self) proto peer (get_curve_name identity true)
    = Return r ->
  length (session_key r) = 65 \/ length (session_key r) = 33 ->
  (session_key r !! 0 = Some x04 ->
   ecdh fields self identity peer = Return (session_key r))
  /\ (session_key r !! 0 <> Some x04 ->
      ecdh fields self identity peer = Raise AssertionError
      /\ (forall msg, ecdh fields self identity peer <> Raise (DeviceError msg))
      /\ (forall v, ecdh fields self identity peer <> Return v)).
Proof.
  intros Hproto Hcall Hlen.
  assert (forall k : outcome bytes,
            ecdh fields self identity peer = k ->
            try_except
              (_ ← assert (bool_decide (take 1 (session_key r) = [x04]));
               mret (session_key r))
              is_CallException
              (fun e => Raise (DeviceError
                 (self_str self +:+ " error: " +:+ exn_str e))) = k) as Hstep.
  { intros k <-. unfold ecdh.
    rewrite Hproto, bind_Return, Hcall, bind_Return.
    by rewrite (assert_holds (_ \/ _)), bind_Return. }
  split; intros Hfst.
  - rewrite <- (Hstep _ eq_refl).
    by rewrite assert_holds by (by apply take_1_singleton).
  - assert (ecdh fields self identity peer = Raise AssertionError) as ->.
    { rewrite <- (Hstep _ eq_refl).
      rewrite assert_fails; [reflexivity|]. by rewrite take_1_singleton. }
    repeat split; intros; discriminate.
Qed.

Lemma ecdh_checks_prefix_witness :
  ecdh Fixture.fields (Fixture.agreeing (x04 :: replicate 32 x11))
    Fixture.identity Fixture.blob = Return (x04 :: replicate 32 x11)
  /\ ecdh Fixture.fields (Fixture.agreeing (x01 :: replicate 64 x11))
       Fixture.identity Fixture.blob = Raise AssertionError.
Proof.
  split.
  - refine (proj1 (ecdh_checks_prefix Fixture.fields
                     (Fixture.agreeing (x04 :: replicate 32 x11))
                     Fixture.identity Fixture.blob _
                     {| session_key := x04 :: replicate 32 x11 |} _ _ _) _);
      [reflexivity | reflexivity | right; reflexivity | reflexivity].
  - refine (proj1 (proj2 (ecdh_checks_prefix Fixture.fields
                     (Fixture.agreeing (x01 :: replicate 64 x11))
                     Fixture.identity Fixture.blob _
                     {| session_key := x01 :: replicate 64 x11 |} _ _ _) _));
      [reflexivity | reflexivity | left; reflexivity | discriminate].
Defined.

(** C2 as written fails: a 33-byte session key that starts with 0x02 is not
    returned; [ecdh] raises the assertion failure. *)
Lemma ecdh_33_bytes_counterexample :
  let key := x02 :: replicate 32 x11 in
  length key = 33
  /\ get_ecdh_session_key (conn (Fixture.agreeing key)) ∅ Fixture.blob
       (get_curve_name Fixture.identity true) = Return {| session_key := key |}
  /\ ecdh Fixture.fields (Fixture.agreeing key) Fixture.identity Fixture.blob
       = Raise AssertionError
  /\ ecdh Fixture.fields (Fixture.agreeing key) Fixture.identity Fixture.blob
       <> Return key.
Proof. repeat split. discriminate. Qed.

(** ** [pubkey] *)

(** C9, as the code has it: for every successful answer to the public-node
    request, [pubkey] returns exactly the public-key bytes of the answer's
    node, unmodified; it checks no length, so the result has length 33 or 65
    exactly when the answer's key has. *)
Theorem pubkey_returns_node_key (self : Trezor) (identity : Identity)
    (for_ecdh : bool) (r : PublicKey) :
  get_public_node (conn self) (get_bip32_address identity for_ecdh)
    (get_curve_name identity for_ecdh) = Return r ->
  pubkey self identity for_ecdh = Return (public_key (node r))
  /\ (forall v, pubkey self identity for_ecdh = Return v ->
        (length v = 33 \/ length v = 65)
        <-> (length (public_key (node r)) = 33
             \/ length (public_key (node r)) = 65)).
Proof.
  intros Hcall.
  assert (pubkey self identity for_ecdh = Return (public_key (node r))) as Hp.
  { unfold pubkey. by rewrite Hcall. }
  split; [exact Hp|]. intros v Hv. rewrite Hp in Hv. by simplify_eq.
Qed.

Lemma pubkey_returns_node_key_witness :
  pubkey (Fixture.answering (x02 :: replicate 32 x11)) Fixture.identity false
    = Return (x02 :: replicate 32 x11).
Proof.
  refine (proj1 (pubkey_returns_node_key
                   (Fixture.answering (x02 :: replicate 32 x11))
                   Fixture.identity false
                   {| node := {| public_key := x02 :: replicate 32 x11 |};
                      xpub := "xpub" |} _)).
  reflexivity.
Defined.

(** C9 as written fails: an answer whose key has 32 bytes is returned as it
    is, and its length is neither 33 nor 65. *)
Lemma pubkey_length_counterexample :
  let key := replicate 32 x11 in
  pubkey (Fixture.answering key) Fixture.identity false = Return key
  /\ ~ (length key = 33 \/ length key = 65).
Proof. split; [reflexivity|]. simpl. lia. Qed.

(** ** [connect] *)

Ltac io_unfold :=
  unfold connect, connect_body, Transport_, Client_, ping, conn_close,
    io_try_except, emit, raise;
  unfold mbind, io_bind, mret, io_ret; cbn [for_each].

Lemma is_open_after_close (d : Endpoint) (tr : list event) :
  is_open d (tr ++ [EvClose d]) = false.
Proof. unfold is_open. rewrite foldl_app. cbn. by rewrite decide_True. Qed.

(** What [connect] does when the enumeration starts with [d]: everything
    is decided at [d]. *)
Lemma connect_cons (semver_match : string -> string -> bool) (w : World)
    (self : Trezor) (d : Endpoint) (rest : list Endpoint) (tr : list event) :
  enumerate w (_defs_Transport w) = d :: rest ->
  connect semver_match w self tr =
  match open_outcome w (_defs_Transport w) d with
  | Some e => (Raise e, tr)
  | None =>
      match new_client w d with
      | Raise e => (Raise e, tr ++ [EvOpen d; EvHandshake d; EvClose d])
      | Return c =>
          let connection :=
            with_callbacks (with_transport c d) (passphrase_handler self)
              (create_pin_handler w (with_transport c d)) in
          let current_version :=
            format_N (major_version (features c)) +:+ "."
            +:+ format_N (minor_version (features c)) +:+ "."
            +:+ format_N (patch_version (features c)) in
          if semver_match current_version required_version then
            match ping_outcome w connection "" true with
            | Return _ =>
                (Return connection, tr ++ [EvOpen d; EvHandshake d; EvPing d])
            | Raise e =>
                (Raise e,
                 tr ++ [EvOpen d; EvHandshake d; EvPing d]
                    ++ (if is_Exception e then [EvClose d] else []))
            end
          else
            (Raise (ValueError
                      ("Please upgrade your " +:+ self_str self
                       +:+ " firmware to " +:+ required_version
                       +:+ " version (current: " +:+ current_version +:+ ")")),
             tr ++ [EvOpen d; EvHandshake d])
      end
  end.
Proof.
  intros Henum. io_unfold. rewrite Henum. cbn [for_each]. io_unfold.
  destruct (open_outcome w (_defs_Transport w) d) as [e|]; [reflexivity|].
  destruct (new_client w d) as [c|e]; cbn;
    rewrite <- ?app_assoc; cbn; [|reflexivity].
  destruct (semver_match _ required_version); cbn; [|reflexivity].
  destruct (ping_outcome w _ "" true) as [s|e]; cbn;
    rewrite <- ?app_assoc; cbn; [reflexivity|].
  destruct (is_Exception e); cbn; rewrite <- ?app_assoc; reflexivity.
Qed.

(** C5: when the first endpoint opens and completes its handshake but the
    version string [major.minor.patch] of its features does not satisfy the
    required [>=1.4.0], [connect] raises the firmware error ([ValueError]
    with the upgrade message), whose message names both the required
    constraint and the current version; nothing is retried: the channel saw
    the open and the handshake only, no ping and no other endpoint. *)
Theorem connect_rejects_old_firmware (semver_match : string -> string -> bool)
    (w : World) (self : Trezor) (d : Endpoint) (rest : list Endpoint)
    (c : Client) (tr : list event) :
  enumerate w (_defs_Transport w) = d :: rest ->
  open_outcome w (_defs_Transport w) d = None ->
  new_client w d = Return c ->
  let current_version :=
    format_N (major_version (features c)) +:+ "."
    +:+ format_N (minor_version (features c)) +:+ "."
    +:+ format_N (patch_version (features c)) in
  semver_match current_version required_version = false ->
  let msg :=
    "Please upgrade your " +:+ self_str self +:+ " firmware to "
    +:+ ">=1.4.0" +:+ " version (current: " +:+ current_version +:+ ")" in
  connect semver_match w self tr
    = (Raise (ValueError msg), tr ++ [EvOpen d; EvHandshake d])
  /\ occurs ">=1.4.0" msg
  /\ occurs current_version msg.
Proof.
  intros Henum Hopen Hclient current_version Hold msg. repeat split.
  - rewrite (connect_cons _ _ _ _ _ _ Henum), Hopen, Hclient. cbn zeta.
    fold current_version. by rewrite Hold.
  - unfold msg. do 3 apply occurs_app_r. apply occurs_prefix.
  - unfold msg. do 5 apply occurs_app_r. apply occurs_prefix.
Qed.

Lemma connect_rejects_old_firmware_witness :
  connect satisfies
    (Fixture.world ∅ Fixture.endpoints (Fixture.features_of 1 3 9) (Return ""))
    Fixture.faulty []
  = (Raise (ValueError
       "Please upgrade your Trezor firmware to >=1.4.0 version (current: 1.3.9)"),
     [EvOpen "hid:0001"; EvHandshake "hid:0001"]).
Proof.
  refine (proj1 (connect_rejects_old_firmware satisfies
                   (Fixture.world ∅ Fixture.endpoints
                      (Fixture.features_of 1 3 9) (Return ""))
                   Fixture.faulty "hid:0001" ["hid:0002"]
                   (Fixture.bare_client (Fixture.features_of 1 3 9)) []
                   _ _ _ _));
    reflexivity.
Defined.

(** C6, as the code has it: after the channel is opened, a failure of the
    handshake, and a failure of the ping that unlocks the device with an
    exception that [except Exception] catches, both leave [connect] with
    the channel closed first: the close is the last event before the
    exception reaches the caller, and the channel is not held open
    afterwards.  (The close after a failed handshake is the client
    constructor's, the close after a failed ping is [connect]'s own.) *)
Theorem connect_closes_on_failure
    (semver_match : string -> string -> bool) (w : World) (self : Trezor)
    (d : Endpoint) (rest : list Endpoint) (tr : list event) :
  enumerate w (_defs_Transport w) = d :: rest ->
  open_outcome w (_defs_Transport w) d = None ->
  (forall e,
     new_client w d = Raise e ->
     connect semver_match w self tr
       = (Raise e, tr ++ [EvOpen d; EvHandshake d; EvClose d])
     /\ is_open d (tr ++ [EvOpen d; EvHandshake d; EvClose d]) = false)
  /\ (forall c e,
        new_client w d = Return c ->
        semver_match
          (format_N (major_version (features c)) +:+ "."
           +:+ format_N (minor_version (features c)) +:+ "."
           +:+ format_N (patch_version (features c)))
          required_version = true ->
        ping_outcome w
          (with_callbacks (with_transport c d) (passphrase_handler self)
             (create_pin_handler w (with_transport c d)))
          "" true = Raise e ->
        is_Exception e = true ->
        connect semver_match w self tr
          = (Raise e, tr ++ [EvOpen d; EvHandshake d; EvPing d; EvClose d])
        /\ is_open d (tr ++ [EvOpen d; EvHandshake d; EvPing d; EvClose d])
           = false).
Proof.
  intros Henum Hopen. split.
  - intros e Hclient. split.
    + by rewrite (connect_cons _ _ _ _ _ _ Henum), Hopen, Hclient.
    + change [EvOpen d; EvHandshake d; EvClose d]
        with ([EvOpen d; EvHandshake d] ++ [EvClose d]).
      rewrite app_assoc. apply is_open_after_close.
  - intros c e Hclient Hver Hping Hexc. split.
    + rewrite (connect_cons _ _ _ _ _ _ Henum), Hopen, Hclient. cbn zeta.
      by rewrite Hver, Hping, Hexc.
    + change [EvOpen d; EvHandshake d; EvPing d; EvClose d]
        with ([EvOpen d; EvHandshake d; EvPing d] ++ [EvClose d]).
      rewrite app_assoc. apply is_open_after_close.
Qed.

Lemma connect_closes_on_failure_witness :
  connect satisfies
    (Fixture.silent_world (OtherException "no answer")) Fixture.faulty []
  = (Raise (OtherException "no answer"),
     [EvOpen "hid:0001"; EvHandshake "hid:0001"; EvClose "hid:0001"])
  /\ connect satisfies
       (Fixture.world ∅ Fixture.endpoints (Fixture.features_of 1 4 0)
          (Raise (OtherException "PIN invalid")))
       Fixture.faulty []
     = (Raise (OtherException "PIN invalid"),
        [EvOpen "hid:0001"; EvHandshake "hid:0001"; EvPing "hid:0001";
         EvClose "hid:0001"]).
Proof.
  split.
  - refine (proj1 (proj1 (connect_closes_on_failure satisfies
                            (Fixture.silent_world (OtherException "no answer"))
                            Fixture.faulty "hid:0001" ["hid:0002"] [] _ _)
                     (OtherException "no answer") _));
      reflexivity.
  - refine (proj1 (proj2 (connect_closes_on_failure satisfies
                            (Fixture.world ∅ Fixture.endpoints
                               (Fixture.features_of 1 4 0)
                               (Raise (OtherException "PIN invalid")))
                            Fixture.faulty "hid:0001" ["hid:0002"] [] _ _)
                     (Fixture.bare_client (Fixture.features_of 1 4 0))
                     (OtherException "PIN invalid") _ _ _ _));
      reflexivity.
Defined.

(** C6 as written fails, in two ways.  When the version gate rejects the
    device, the error leaves [connect] while the channel that was opened is
    still held open; no close happened.  And when the ping is cut short by
    an exception outside [Exception] (an interrupt at the PIN prompt), the
    handler around the ping does not catch it: it leaves [connect] with the
    channel still held open. *)
Lemma connect_version_gate_counterexample :
  let gated := [EvOpen "hid:0001"; EvHandshake "hid:0001"] in
  let pinged :=
    [EvOpen "hid:0001"; EvHandshake "hid:0001"; EvPing "hid:0001"] in
  (connect satisfies
     (Fixture.world ∅ Fixture.endpoints (Fixture.features_of 1 3 9)
        (Return ""))
     Fixture.faulty []
   = (Raise (ValueError
        "Please upgrade your Trezor firmware to >=1.4.0 version (current: 1.3.9)"),
      gated)
   /\ (EvClose "hid:0001" ∉ gated)
   /\ is_open "hid:0001" gated = true)
  /\ (connect satisfies
        (Fixture.world ∅ Fixture.endpoints (Fixture.features_of 1 4 0)
           (Raise KeyboardInterrupt))
        Fixture.faulty []
      = (Raise KeyboardInterrupt, pinged)
      /\ (EvClose "hid:0001" ∉ pinged)
      /\ is_open "hid:0001" pinged = true).
Proof.
  repeat split.
  - intros Hin.
    repeat (apply elem_of_cons in Hin as [Hin | Hin]; [discriminate|]).
    by apply elem_of_nil in Hin.
  - intros Hin.
    repeat (apply elem_of_cons in Hin as [Hin | Hin]; [discriminate|]).
    by apply elem_of_nil in Hin.
Qed.

(** C8: [connect] takes the endpoints in the enumeration order of the
    transport that [TREZOR_TRANSPORT] selects and tries the first one only.
    With no endpoint it raises [NotFoundError].  With a first endpoint [d],
    a failure to open, to shake hands or to ping leaves [connect] as that
    exception, whatever endpoints follow, and every event [connect] causes
    is at [d]. *)
Theorem connect_first_endpoint_only (semver_match : string -> string -> bool)
    (w : World) (self : Trezor) (tr : list event) :
  (enumerate w (_defs_Transport w) = [] ->
   connect semver_match w self tr
     = (Raise (NotFoundError (self_str self +:+ " not connected")), tr))
  /\ (forall d rest,
        enumerate w (_defs_Transport w) = d :: rest ->
        (forall e, open_outcome w (_defs_Transport w) d = Some e ->
                   connect semver_match w self tr = (Raise e, tr))
        /\ (forall e, open_outcome w (_defs_Transport w) d = None ->
                      new_client w d = Raise e ->
                      connect semver_match w self tr
                        = (Raise e,
                           tr ++ [EvOpen d; EvHandshake d; EvClose d]))
        /\ (forall c e,
              open_outcome w (_defs_Transport w) d = None ->
              new_client w d = Return c ->
              semver_match
                (format_N (major_version (features c)) +:+ "."
                 +:+ format_N (minor_version (features c)) +:+ "."
                 +:+ format_N (patch_version (features c)))
                required_version = true ->
              ping_outcome w
                (with_callbacks (with_transport c d) (passphrase_handler self)
                   (create_pin_handler w (with_transport c d)))
                "" true = Raise e ->
              (connect semver_match w self tr).1 = Raise e)
        /\ exists new,
             (connect semver_match w self tr).2 = tr ++ new
             /\ Forall (fun ev => event_endpoint ev = d) new).
Proof.
  split.
  - intros Henum. io_unfold. by rewrite Henum.
  - intros d rest Henum. rewrite (connect_cons _ _ _ _ _ _ Henum).
    repeat split.
    + by intros e ->.
    + by intros e -> ->.
    + intros c e -> -> Hver Hping. cbn zeta. by rewrite Hver, Hping.
    + destruct (open_outcome w (_defs_Transport w) d) as [e|].
      { exists []. by rewrite app_nil_r. }
      destruct (new_client w d) as [c|e]; cbn zeta.
      2: { eexists. split; [reflexivity|]. by repeat constructor. }
      destruct (semver_match _ required_version).
      2: { eexists. split; [reflexivity|]. by repeat constructor. }
      destruct (ping_outcome w _ "" true) as [s|e].
      { eexists. split; [reflexivity|]. by repeat constructor. }
      destruct (is_Exception e);
        (eexists; split; [reflexivity|]; by repeat constructor).
Qed.

Lemma connect_first_endpoint_only_witness :
  connect satisfies
    (Fixture.world ∅ [] (Fixture.features_of 1 4 0) (Return ""))
    Fixture.faulty []
  = (Raise (NotFoundError "Trezor not connected"), [])
  /\ (connect satisfies
        (Fixture.world ∅ Fixture.endpoints (Fixture.features_of 1 4 0)
           (Raise KeyboardInterrupt))
        Fixture.faulty []).1
     = Raise KeyboardInterrupt.
Proof.
  split.
  - refine (proj1 (connect_first_endpoint_only satisfies
                     (Fixture.world ∅ [] (Fixture.features_of 1 4 0)
                        (Return ""))
                     Fixture.faulty []) _).
    reflexivity.
  - refine (proj1 (proj2 (proj2
              (proj2 (connect_first_endpoint_only satisfies
                        (Fixture.world ∅ Fixture.endpoints
                           (Fixture.features_of 1 4 0)
                           (Raise KeyboardInterrupt))
                        Fixture.faulty [])
                 "hid:0001" ["hid:0002"] _)))
              (Fixture.bare_client (Fixture.features_of 1 4 0))
              KeyboardInterrupt _ _ _ _);
      reflexivity.
Defined.

(** ** The passphrase callback *)

(** C10: the passphrase callback does not look at its request context.
    For a device object of a class created under the environment [environ],
    any two contexts get equal acks, each carrying the value of
    [TREZOR_PASSPHRASE] in [environ], or the empty string when it is unset;
    and the callback slot of a connection that [connect] returns answers
    every context with that ack. *)
Theorem passphrase_handler_constant (environ : gmap string string)
    (name : string) (c : Client) :
  let self :=
    {| self_str := name; passphrase := class_passphrase environ; conn := c |} in
  (forall ctx1 ctx2,
     passphrase_handler self ctx1 = passphrase_handler self ctx2)
  /\ (forall ctx,
        passphrase_handler self ctx
        = {| ack_passphrase := default "" (environ !! "TREZOR_PASSPHRASE") |})
  /\ (forall semver_match w tr connection tr',
        connect semver_match w self tr = (Return connection, tr') ->
        forall ctx,
          callback_PassphraseRequest connection ctx
          = {| ack_passphrase := default "" (environ !! "TREZOR_PASSPHRASE") |}).
Proof.
  intros self. repeat split.
  intros semver_match w tr connection tr' Hconn ctx.
  destruct (enumerate w (_defs_Transport w)) as [|d rest] eqn:Henum.
  - revert Hconn. io_unfold. by rewrite Henum.
  - rewrite (connect_cons _ _ _ _ _ _ Henum) in Hconn.
    destruct (open_outcome w (_defs_Transport w) d); [discriminate|].
    destruct (new_client w d) as [c'|]; [|discriminate].
    cbn zeta in Hconn.
    destruct (semver_match _ required_version); [|discriminate].
    destruct (ping_outcome w _ "" true); [|discriminate].
    by simplify_eq.
Qed.

Lemma passphrase_handler_constant_witness :
  let self :=
    {| self_str := "Trezor";
       passphrase :=
         class_passphrase {[ "TREZOR_PASSPHRASE" := "correct horse" ]};
       conn := Fixture.bare_client (Fixture.features_of 1 4 0) |} in
  match
    connect satisfies
      (Fixture.world ∅ Fixture.endpoints (Fixture.features_of 1 4 0)
         (Return ""))
      self []
  with
  | (Return connection, _) =>
      callback_PassphraseRequest connection {| passphrase_context := [x07] |}
      = {| ack_passphrase := "correct horse" |}
  | _ => False
  end.
Proof.
  refine (proj2 (proj2 (passphrase_handler_constant
                          {[ "TREZOR_PASSPHRASE" := "correct horse" ]}
                          "Trezor"
                          (Fixture.bare_client (Fixture.features_of 1 4 0))))
            satisfies
            (Fixture.world ∅ Fixture.endpoints (Fixture.features_of 1 4 0)
               (Return ""))
            [] _ _ _ {| passphrase_context := [x07] |}).
  reflexivity.
Defined.

(** ** [_identity_proto] *)

(** With legal names only, the loop sets every item, in order. *)
Lemma set_items_legal (fields : gset string) (l : list (string * string))
    (m : message) :
  Forall (fun p => p.1 ∈ fields) l ->
  set_items fields m l = Return (foldl (fun acc p => <[p.1 := p.2]> acc) m l).
Proof.
  intros Hl. revert m. induction Hl as [|[name value] l Hname Hl IH]; intros m.
  - reflexivity.
  - cbn in *. unfold setattr. rewrite decide_True by done.
    rewrite bind_Return. apply IH.
Qed.

(** With an unknown name among the items, the loop stops at the first one. *)
Lemma set_items_unknown (fields : gset string) (l : list (string * string))
    (m : message) :
  Exists (fun p => p.1 ∉ fields) l ->
  exists bad, set_items fields m l = Raise (ProtocolError bad)
              /\ bad ∈ l.*1 /\ bad ∉ fields.
Proof.
  revert m. induction l as [|[name value] l IH]; intros m Hex.
  - by apply Exists_nil in Hex.
  - cbn. unfold setattr. destruct (decide (name ∈ fields)) as [Hin|Hout].
    + rewrite bind_Return. apply Exists_cons in Hex as [Hex|Hex]; [done|].
      destruct (IH (<[name:=value]> m) Hex) as (bad & Hraise & Hbad & Hnot).
      exists bad. split_and!; [done | by apply elem_of_cons; right | done].
    + exists name. split_and!; [done | by apply elem_of_cons; left | done].
Qed.

Lemma foldl_insert_is_Some (l : list (string * string)) (m : message)
    (k : string) :
  is_Some (m !! k) \/ k ∈ l.*1 ->
  is_Some (foldl (fun acc p => <[p.1 := p.2]> acc) m l !! k).
Proof.
  revert m. induction l as [|[name value] l IH]; intros m [Hm|Hk]; cbn.
  - done.
  - by apply elem_of_nil in Hk.
  - apply IH. left. destruct (decide (name = k)) as [->|Hne].
    + rewrite lookup_insert_eq. by eexists.
    + by rewrite lookup_insert_ne.
  - apply IH. cbn in Hk. apply elem_of_cons in Hk as [->|Hk]; [left|by right].
    rewrite lookup_insert_eq. by eexists.
Qed.

(** C7: when an identity has a field name that the outgoing message type
    does not have, encoding it raises [ProtocolError] for such a name (the
    first one met), and so do [sign] and [ecdh], before any device call; no
    name is skipped: when the encoding does produce a message, every field
    name of the identity is legal and is set in it. *)
Theorem identity_proto_rejects_unknown (fields : gset string) (self : Trezor)
    (identity : Identity) :
  (forall name,
     name ∈ (items identity).*1 -> name ∉ fields ->
     exists bad,
       bad ∈ (items identity).*1 /\ (bad ∉ fields)
       /\ _identity_proto fields self identity = Raise (ProtocolError bad)
       /\ (forall blob,
             sign fields self identity blob = Raise (ProtocolError bad))
       /\ (forall peer,
             ecdh fields self identity peer = Raise (ProtocolError bad)))
  /\ (forall m,
        _identity_proto fields self identity = Return m ->
        forall name, name ∈ (items identity).*1 ->
                     name ∈ fields /\ is_Some (m !! name)).
Proof.
  split.
  - intros name Hname Hnot.
    assert (Exists (fun p => p.1 ∉ fields) (items identity)) as Hex.
    { apply Exists_exists. apply list_elem_of_fmap in Hname as (p & -> & Hp).
      by exists p. }
    destruct (set_items_unknown fields _ ∅ Hex) as (bad & Hraise & Hbad & Hout).
    exists bad. split_and!; try done.
    + intros blob. unfold sign, _identity_proto. by rewrite Hraise.
    + intros peer. unfold ecdh, _identity_proto. by rewrite Hraise.
  - intros m Hm name Hname.
    destruct (decide (Forall (fun p => p.1 ∈ fields) (items identity)))
      as [Hall|Hsome].
    + split.
      * apply list_elem_of_fmap in Hname as (p & -> & Hp).
        by apply (proj1 (Forall_forall _ _) Hall).
      * unfold _identity_proto in Hm. rewrite set_items_legal in Hm by done.
        simplify_eq. apply foldl_insert_is_Some. by right.
    + apply not_Forall_Exists in Hsome; [|intros p; apply _].
      destruct (set_items_unknown fields _ ∅ Hsome) as (bad & Hraise & _).
      unfold _identity_proto in Hm. congruence.
Qed.

Lemma identity_proto_rejects_unknown_witness :
  exists bad,
    bad ∈ (items Fixture.odd_identity).*1 /\ (bad ∉ Fixture.fields)
    /\ _identity_proto Fixture.fields Fixture.faulty Fixture.odd_identity
       = Raise (ProtocolError bad)
    /\ (forall blob,
          sign Fixture.fields Fixture.faulty Fixture.odd_identity blob
          = Raise (ProtocolError bad))
    /\ (forall peer,
          ecdh Fixture.fields Fixture.faulty Fixture.odd_identity peer
          = Raise (ProtocolError bad)).
Proof.
  apply (proj1 (identity_proto_rejects_unknown Fixture.fields Fixture.faulty
                  Fixture.odd_identity) "colour").
  - apply (bool_decide_unpack _). vm_compute. exact I.
  - apply (bool_decide_unpack _). vm_compute. exact I.
Defined.

(** * Further properties of the operations *)

(** ** What the operations return and what they let through *)

(** X1: [pubkey] has no handler around its device call: a fault the device
    reports while the public key is fetched leaves [pubkey] as the raw
    [CallException], not as [DeviceError]; any other exception leaves it
    unchanged too. *)
Theorem pubkey_propagates_raw (self : Trezor) (identity : Identity)
    (for_ecdh : bool) (e : exn) :
  get_public_node (conn self) (get_bip32_address identity for_ecdh)
    (get_curve_name identity for_ecdh) = Raise e ->
  pubkey self identity for_ecdh = Raise e
  /\ (forall msg, e <> DeviceError msg ->
                  pubkey self identity for_ecdh <> Raise (DeviceError msg))
  /\ (forall v, pubkey self identity for_ecdh <> Return v).
Proof.
  intros Hcall.
  assert (pubkey self identity for_ecdh = Raise e) as ->.
  { unfold pubkey. by rewrite Hcall. }
  split_and!; [done | intros msg Hne [=]; congruence | discriminate].
Qed.

Lemma pubkey_propagates_raw_witness :
  pubkey Fixture.faulty Fixture.identity true
  = Raise (CallException "Action cancelled by user").
Proof.
  refine (proj1 (pubkey_propagates_raw Fixture.faulty Fixture.identity true
                   Fixture.fault _)).
  reflexivity.
Defined.

(** X2: an exception of the device call that is not a [CallException] (a
    transport failure, an interrupt) leaves [sign] and [ecdh] unchanged: it
    is not wrapped in [DeviceError]. *)
Theorem device_call_failure_passes_through (fields : gset string)
    (self : Trezor) (identity : Identity) (blob peer : bytes)
    (proto : message) (e : exn) :
  _identity_proto fields self identity = Return proto ->
  is_CallException e = false ->
  (sign_identity (conn self) proto blob "" (get_curve_name identity false)
     = Raise e ->
   sign fields self identity blob = Raise e)
  /\ (get_ecdh_session_key (conn self) proto peer
        (get_curve_name identity true) = Raise e ->
      ecdh fields self identity peer = Raise e).
Proof.
  intros Hproto Hkind. split; intros Hcall.
  - unfold sign. rewrite Hproto, bind_Return, Hcall. cbn. by rewrite Hkind.
  - unfold ecdh. rewrite Hproto, bind_Return, Hcall. cbn. by rewrite Hkind.
Qed.

Lemma device_call_failure_passes_through_witness :
  sign Fixture.fields
    (Fixture.device (Raise Fixture.fault)
       (Raise (OtherException "read timed out")) (Raise KeyboardInterrupt))
    Fixture.identity Fixture.blob
  = Raise (OtherException "read timed out").
Proof.
  refine (proj1 (device_call_failure_passes_through Fixture.fields
                   (Fixture.device (Raise Fixture.fault)
                      (Raise (OtherException "read timed out"))
                      (Raise KeyboardInterrupt))
                   Fixture.identity Fixture.blob Fixture.blob _
                   (OtherException "read timed out") _ _) _);
    reflexivity.
Defined.

(** X3: whatever the device answers, a value that [sign] returns has
    exactly 64 bytes, and the device's signature was 0x00 followed by that
    value. *)
Theorem sign_returns_64_bytes (fields : gset string) (self : Trezor)
    (identity : Identity) (blob v : bytes) :
  sign fields self identity blob = Return v ->
  length v = 64
  /\ exists proto r,
       _identity_proto fields self identity = Return proto
       /\ sign_identity (conn self) proto blob ""
            (get_curve_name identity false) = Return r
       /\ signature r = x00 :: v.
Proof.
  unfold sign. intros Hsign.
  destruct (_identity_proto fields self identity) as [proto|e] eqn:Hproto.
  2: { cbn in Hsign. by destruct (is_CallException e). }
  rewrite bind_Return in Hsign.
  destruct (sign_identity (conn self) proto blob "" _) as [r|e] eqn:Hcall.
  2: { cbn in Hsign. by destruct (is_CallException e). }
  rewrite bind_Return in Hsign.
  destruct (decide (length (signature r) = 65)) as [Hlen|Hlen].
  2: { by rewrite (assert_fails (length _ = 65)) in Hsign. }
  rewrite (assert_holds (length _ = 65)), bind_Return in Hsign by done.
  destruct (decide (take 1 (signature r) = [x00])) as [Hfst|Hfst].
  2: { by rewrite assert_fails in Hsign. }
  rewrite assert_holds in Hsign by done. cbn in Hsign. simplify_eq.
  apply take_1_singleton in Hfst.
  destruct (signature r) as [|x s] eqn:Hsig; simplify_eq/=.
  rewrite drop_0. split; [lia|]. by exists proto, r.
Qed.

Lemma sign_returns_64_bytes_witness :
  sign Fixture.fields (Fixture.signing (x00 :: replicate 64 x11))
    Fixture.identity Fixture.blob = Return (replicate 64 x11)
  /\ length (replicate 64 x11) = 64.
Proof.
  split; [reflexivity|].
  refine (proj1 (sign_returns_64_bytes Fixture.fields
                   (Fixture.signing (x00 :: replicate 64 x11))
                   Fixture.identity Fixture.blob (replicate 64 x11) _)).
  reflexivity.
Defined.

(** X4: whatever the device answers, a value that [ecdh] returns is the
    device's session key itself, has 65 or 33 bytes and starts with 0x04. *)
Theorem ecdh_returns_prefixed_key (fields : gset string) (self : Trezor)
    (identity : Identity) (peer v : bytes) :
  ecdh fields self identity peer = Return v ->
  (length v = 65 \/ length v = 33)
  /\ v !! 0 = Some x04
  /\ exists proto,
       _identity_proto fields self identity = Return proto
       /\ get_ecdh_session_key (conn self) proto peer
            (get_curve_name identity true) = Return {| session_key := v |}.
Proof.
  unfold ecdh. intros Hecdh.
  destruct (_identity_proto fields self identity) as [proto|e] eqn:Hproto.
  2: { cbn in Hecdh. by destruct (is_CallException e). }
  rewrite bind_Return in Hecdh.
  destruct (get_ecdh_session_key (conn self) proto peer _) as [r|e] eqn:Hcall.
  2: { cbn in Hecdh. by destruct (is_CallException e). }
  rewrite bind_Return in Hecdh.
  destruct (decide (length (session_key r) = 65
                    \/ length (session_key r) = 33)) as [Hlen|Hlen].
  2: { by rewrite (assert_fails (_ \/ _)) in Hecdh. }
  rewrite (assert_holds (_ \/ _)), bind_Return in Hecdh by done.
  destruct (decide (take 1 (session_key r) = [x04])) as [Hfst|Hfst].
  2: { by rewrite assert_fails in Hecdh. }
  rewrite assert_holds in Hecdh by done. cbn in Hecdh. simplify_eq.
  split_and!; [done | by apply take_1_singleton |].
  exists proto. split; [done|]. by destruct r.
Qed.

Lemma ecdh_returns_prefixed_key_witness :
  ecdh Fixture.fields (Fixture.agreeing (x04 :: replicate 64 x11))
    Fixture.identity Fixture.blob = Return (x04 :: replicate 64 x11)
  /\ (x04 :: replicate 64 x11) !! 0 = Some x04.
Proof.
  split; [reflexivity|].
  refine (proj1 (proj2 (ecdh_returns_prefixed_key Fixture.fields
                   (Fixture.agreeing (x04 :: replicate 64 x11))
                   Fixture.identity Fixture.blob (x04 :: replicate 64 x11) _))).
  reflexivity.
Defined.

(** X5: a session key whose length is neither 65 nor 33 makes [ecdh] raise
    the assertion failure, also when it starts with 0x04. *)
Theorem ecdh_rejects_other_lengths (fields : gset string) (self : Trezor)
    (identity : Identity) (peer : bytes) (proto : message)
    (r : ECDHSessionKey) :
  _identity_proto fields self identity = Return proto ->
  get_ecdh_session_key (conn self) proto peer (get_curve_name identity true)
    = Return r ->
  length (session_key r) <> 65 ->
  length (session_key r) <> 33 ->
  ecdh fields self identity peer = Raise AssertionError.
Proof.
  intros Hproto Hcall H65 H33. unfold ecdh.
  rewrite Hproto, bind_Return, Hcall, bind_Return.
  rewrite (assert_fails (_ \/ _)); [reflexivity|]. by intros [?|?].
Qed.

Lemma ecdh_rejects_other_lengths_witness :
  ecdh Fixture.fields (Fixture.agreeing (x04 :: replicate 31 x11))
    Fixture.identity Fixture.blob = Raise AssertionError.
Proof.
  refine (ecdh_rejects_other_lengths Fixture.fields
            (Fixture.agreeing (x04 :: replicate 31 x11))
            Fixture.identity Fixture.blob _
            {| session_key := x04 :: replicate 31 x11 |} _ _ _ _);
    [reflexivity | reflexivity | simpl; lia | simpl; lia].
Defined.

(** ** The encoded identity *)

Lemma foldl_insert_lookup_other (l : list (string * string)) (m : message)
    (k : string) :
  k ∉ l.*1 ->
  foldl (fun acc p => <[p.1 := p.2]> acc) m l !! k = m !! k.
Proof.
  revert m. induction l as [|[name value] l IH]; intros m Hk; [done|].
  cbn in *. apply not_elem_of_cons in Hk as [Hne Hk].
  rewrite IH by done. by rewrite lookup_insert_ne.
Qed.

Lemma foldl_insert_lookup (l : list (string * string)) (m : message)
    (k v : string) :
  NoDup l.*1 -> (k, v) ∈ l ->
  foldl (fun acc p => <[p.1 := p.2]> acc) m l !! k = Some v.
Proof.
  revert m. induction l as [|[name value] l IH]; intros m Hnd Hin.
  - by apply elem_of_nil in Hin.
  - cbn in *. apply NoDup_cons in Hnd as [Hfresh Hnd].
    apply elem_of_cons in Hin as [Heq|Hin].
    + simplify_eq. rewrite foldl_insert_lookup_other by done.
      apply lookup_insert_eq.
    + by apply IH.
Qed.

(** X6: for an identity whose field names are distinct and all legal, the
    encoding succeeds with a message that holds every field of the identity
    with its value and no other field. *)
Theorem identity_proto_sets_fields (fields : gset string) (self : Trezor)
    (identity : Identity) :
  NoDup (items identity).*1 ->
  (forall name, name ∈ (items identity).*1 -> name ∈ fields) ->
  exists m,
    _identity_proto fields self identity = Return m
    /\ (forall name value,
          (name, value) ∈ items identity -> m !! name = Some value)
    /\ (forall name, name ∉ (items identity).*1 -> m !! name = None).
Proof.
  intros Hnd Hlegal. eexists. split_and!.
  - unfold _identity_proto. apply set_items_legal.
    apply Forall_forall. intros [name value] Hin. apply Hlegal.
    apply list_elem_of_fmap. by exists (name, value).
  - intros name value Hin. by apply foldl_insert_lookup.
  - intros name Hout. by rewrite foldl_insert_lookup_other.
Qed.

Lemma identity_proto_sets_fields_witness :
  exists m,
    _identity_proto Fixture.fields Fixture.faulty Fixture.identity = Return m
    /\ (forall name value,
          (name, value) ∈ items Fixture.identity -> m !! name = Some value)
    /\ (forall name,
          name ∉ (items Fixture.identity).*1 -> m !! name = None).
Proof.
  apply (identity_proto_sets_fields Fixture.fields Fixture.faulty
           Fixture.identity).
  - apply (bool_decide_unpack _). vm_compute. exact I.
  - intros name Hname. cbn in Hname.
    repeat (apply elem_of_cons in Hname as [->|Hname];
            [apply (bool_decide_unpack _); vm_compute; exact I|]).
    by apply elem_of_nil in Hname.
Defined.

(** ** More on [connect] and [close] *)

Lemma is_open_after_unlock (d : Endpoint) (tr : list event) :
  is_open d (tr ++ [EvOpen d; EvHandshake d; EvPing d]) = true.
Proof. unfold is_open. rewrite foldl_app. cbn. by rewrite decide_True. Qed.

(** What must have happened when [connect] returns a connection. *)
Lemma connect_Return_inv (semver_match : string -> string -> bool)
    (w : World) (self : Trezor) (tr tr' : list event) (connection : Client) :
  connect semver_match w self tr = (Return connection, tr') ->
  exists d rest c s,
    enumerate w (_defs_Transport w) = d :: rest
    /\ open_outcome w (_defs_Transport w) d = None
    /\ new_client w d = Return c
    /\ semver_match (current_version (features c)) required_version = true
    /\ connection
       = with_callbacks (with_transport c d) (passphrase_handler self)
           (create_pin_handler w (with_transport c d))
    /\ ping_outcome w connection "" true = Return s
    /\ tr' = tr ++ [EvOpen d; EvHandshake d; EvPing d].
Proof.
  intros Hconn.
  destruct (enumerate w (_defs_Transport w)) as [|d rest] eqn:Henum.
  { revert Hconn. io_unfold. by rewrite Henum. }
  rewrite (connect_cons _ _ _ _ _ _ Henum) in Hconn.
  destruct (open_outcome w (_defs_Transport w) d) eqn:Hopen; [discriminate|].
  destruct (new_client w d) as [c|] eqn:Hclient; [|discriminate].
  cbn zeta in Hconn. fold (current_version (features c)) in Hconn.
  destruct (semver_match _ required_version) eqn:Hver; [|discriminate].
  destruct (ping_outcome w _ "" true) as [s|] eqn:Hping; [|discriminate].
  simplify_eq. by exists d, rest, c, s.
Qed.

(** X7: when the first endpoint opens, completes its handshake with a
    version that satisfies the requirement and answers the ping (sent with an
    empty message and PIN protection), [connect] returns the client of that
    endpoint: its transport is the endpoint, its features and device calls
    are the client's own, its passphrase callback is the handler of
    [connect], and the channel is left open. *)
Theorem connect_returns_first_endpoint
    (semver_match : string -> string -> bool) (w : World) (self : Trezor)
    (d : Endpoint) (rest : list Endpoint) (c : Client) (s : string)
    (tr : list event) :
  enumerate w (_defs_Transport w) = d :: rest ->
  open_outcome w (_defs_Transport w) d = None ->
  new_client w d = Return c ->
  semver_match (current_version (features c)) required_version = true ->
  ping_outcome w
    (with_callbacks (with_transport c d) (passphrase_handler self)
       (create_pin_handler w (with_transport c d)))
    "" true = Return s ->
  exists connection,
    connect semver_match w self tr
      = (Return connection, tr ++ [EvOpen d; EvHandshake d; EvPing d])
    /\ transport connection = d
    /\ features connection = features c
    /\ get_public_node connection = get_public_node c
    /\ sign_identity connection = sign_identity c
    /\ get_ecdh_session_key connection = get_ecdh_session_key c
    /\ (forall ctx, callback_PassphraseRequest connection ctx
                    = {| ack_passphrase := passphrase self |})
    /\ is_open d (tr ++ [EvOpen d; EvHandshake d; EvPing d]) = true.
Proof.
  intros Henum Hopen Hclient Hver Hping. eexists. split.
  - rewrite (connect_cons _ _ _ _ _ _ Henum), Hopen, Hclient. cbn zeta.
    fold (current_version (features c)). by rewrite Hver, Hping.
  - split_and!; try reflexivity. apply is_open_after_unlock.
Qed.

Lemma connect_returns_first_endpoint_witness :
  exists connection,
    connect satisfies
      (Fixture.world ∅ Fixture.endpoints (Fixture.features_of 1 4 0)
         (Return ""))
      Fixture.faulty []
    = (Return connection,
       [EvOpen "hid:0001"; EvHandshake "hid:0001"; EvPing "hid:0001"])
    /\ transport connection = "hid:0001".
Proof.
  destruct (connect_returns_first_endpoint satisfies
              (Fixture.world ∅ Fixture.endpoints (Fixture.features_of 1 4 0)
                 (Return ""))
              Fixture.faulty "hid:0001" ["hid:0002"]
              (Fixture.bare_client (Fixture.features_of 1 4 0)) "" []
              eq_refl eq_refl eq_refl eq_refl eq_refl)
    as (connection & Hconn & Htransport & _).
  exists connection. split; [exact Hconn | exact Htransport].
Defined.

(** X8: a connection that [connect] returns always passed the version gate
    and the ping: its version string satisfies the requirement, it belongs to
    the first endpoint of the selected transport's enumeration, and its
    channel is open. *)
Theorem connect_returns_only_compatible
    (semver_match : string -> string -> bool) (w : World) (self : Trezor)
    (tr tr' : list event) (connection : Client) :
  connect semver_match w self tr = (Return connection, tr') ->
  semver_match (current_version (features connection)) required_version = true
  /\ head (enumerate w (_defs_Transport w)) = Some (transport connection)
  /\ (exists s, ping_outcome w connection "" true = Return s)
  /\ is_open (transport connection) tr' = true.
Proof.
  intros (d & rest & c & s & Henum & _ & _ & Hver & -> & Hping & ->)
    %connect_Return_inv.
  split_and!.
  - exact Hver.
  - by rewrite Henum.
  - by exists s.
  - apply is_open_after_unlock.
Qed.

Lemma connect_returns_only_compatible_witness :
  let w := Fixture.world ∅ Fixture.endpoints (Fixture.features_of 2 0 1)
             (Return "") in
  let connection :=
    with_callbacks
      (with_transport (Fixture.bare_client (Fixture.features_of 2 0 1))
         "hid:0001")
      (passphrase_handler Fixture.faulty) cli_handler in
  satisfies (current_version (features connection)) required_version = true.
Proof.
  refine (proj1 (connect_returns_only_compatible satisfies
                   (Fixture.world ∅ Fixture.endpoints
                      (Fixture.features_of 2 0 1) (Return ""))
                   Fixture.faulty []
                   [EvOpen "hid:0001"; EvHandshake "hid:0001";
                    EvPing "hid:0001"] _ _)).
  reflexivity.
Defined.

(** X9: the PIN callback of a connection that [connect] returns is chosen
    by standard input: the client's own terminal handler when standard input
    is open and is a terminal, the Qt dialog otherwise (also when standard
    input is closed, whatever its descriptor is). *)
Theorem connect_pin_handler (semver_match : string -> string -> bool)
    (w : World) (self : Trezor) (tr tr' : list event) (connection : Client) :
  connect semver_match w self tr = (Return connection, tr') ->
  exists c,
    new_client w (transport connection) = Return c
    /\ (stdin_closed w = false -> stdin_isatty w = true ->
        callback_PinMatrixRequest connection = callback_PinMatrixRequest c)
    /\ (stdin_closed w = true \/ stdin_isatty w = false ->
        callback_PinMatrixRequest connection = qt_handler).
Proof.
  intros (d & rest & c & s & _ & _ & Hclient & _ & -> & _ & _)
    %connect_Return_inv.
  exists c. cbn. unfold create_pin_handler. split_and!.
  - exact Hclient.
  - by intros -> ->.
  - intros [-> | ->]; [done|]. by destruct (stdin_closed w).
Qed.

Lemma connect_pin_handler_witness :
  exists c,
    new_client
      (Fixture.world ∅ Fixture.endpoints (Fixture.features_of 1 4 0)
         (Return ""))
      "hid:0001" = Return c
    /\ callback_PinMatrixRequest c = cli_handler.
Proof.
  destruct (connect_pin_handler satisfies
              (Fixture.world ∅ Fixture.endpoints (Fixture.features_of 1 4 0)
                 (Return ""))
              Fixture.faulty []
              [EvOpen "hid:0001"; EvHandshake "hid:0001"; EvPing "hid:0001"]
              _ eq_refl) as (c & Hclient & Htty & _).
  exists c. split; [exact Hclient|].
  symmetry. exact (Htty eq_refl eq_refl).
Defined.

(** X10: [close] on a device object that holds the connection [connect]
    returned closes that connection's channel: the channel was open after
    [connect] and is not held open after [close]. *)
Theorem connect_then_close (semver_match : string -> string -> bool)
    (w : World) (self : Trezor) (tr tr' : list event) (connection : Client) :
  connect semver_match w self tr = (Return connection, tr') ->
  let opened :=
    {| self_str := self_str self; passphrase := passphrase self;
       conn := connection |} in
  is_open (transport connection) tr' = true
  /\ close opened tr' = (Return tt, tr' ++ [EvClose (transport connection)])
  /\ is_open (transport connection)
       (tr' ++ [EvClose (transport connection)]) = false.
Proof.
  intros (d & rest & c & s & _ & _ & _ & _ & -> & _ & ->)%connect_Return_inv.
  cbn. split_and!.
  - apply is_open_after_unlock.
  - reflexivity.
  - apply is_open_after_close.
Qed.

Lemma connect_then_close_witness :
  let connection :=
    with_callbacks
      (with_transport (Fixture.bare_client (Fixture.features_of 1 4 0))
         "hid:0001")
      (passphrase_handler Fixture.faulty) cli_handler in
  close
    {| self_str := "Trezor"; passphrase := ""; conn := connection |}
    [EvOpen "hid:0001"; EvHandshake "hid:0001"; EvPing "hid:0001"]
  = (Return tt,
     [EvOpen "hid:0001"; EvHandshake "hid:0001"; EvPing "hid:0001";
      EvClose "hid:0001"]).
Proof.
  refine (proj1 (proj2 (connect_then_close satisfies
                          (Fixture.world ∅ Fixture.endpoints
                             (Fixture.features_of 1 4 0) (Return ""))
                          Fixture.faulty []
                          [EvOpen "hid:0001"; EvHandshake "hid:0001";
                           EvPing "hid:0001"]
                          (with_callbacks
                             (with_transport
                                (Fixture.bare_client
                                   (Fixture.features_of 1 4 0))
                                "hid:0001")
                             (passphrase_handler Fixture.faulty) cli_handler)
                          _))).
  reflexivity.
Defined.

Lemma no_close_2 (a b : Endpoint) :
  Forall (fun ev => forall d', ev <> EvClose d') [EvOpen a; EvHandshake b].
Proof. by repeat constructor. Qed.

Lemma no_close_3 (a b c : Endpoint) :
  Forall (fun ev => forall d', ev <> EvClose d')
    [EvOpen a; EvHandshake b; EvPing c].
Proof. by repeat constructor. Qed.

(** X11: once the handshake with the first endpoint has succeeded,
    [connect] closes the channel in one case only: a close among the events
    it causes is the close of that endpoint, the ping on it failed with an
    exception that [except Exception] catches, and [connect] raises that
    exception.  A rejected version and a returned connection never come
    with a close. *)
Theorem connect_closes_only_after_ping_failure
    (semver_match : string -> string -> bool) (w : World) (self : Trezor)
    (tr new : list event) (r : outcome Client) (d d' : Endpoint)
    (rest : list Endpoint) (c : Client) :
  enumerate w (_defs_Transport w) = d :: rest ->
  new_client w d = Return c ->
  connect semver_match w self tr = (r, tr ++ new) ->
  EvClose d' ∈ new ->
  d' = d
  /\ semver_match (current_version (features c)) required_version = true
  /\ exists e,
       ping_outcome w
         (with_callbacks (with_transport c d) (passphrase_handler self)
            (create_pin_handler w (with_transport c d)))
         "" true = Raise e
       /\ is_Exception e = true
       /\ r = Raise e.
Proof.
  intros Henum Hclient Hconn Hclose.
  assert (forall l : list event,
            Forall (fun ev => forall d0, ev <> EvClose d0) l ->
            tr ++ l <> tr ++ new) as Hnone.
  { intros l Hl ->%app_inv_head.
    by apply (proj1 (Forall_forall _ _) Hl _ Hclose d'). }
  rewrite (connect_cons _ _ _ _ _ _ Henum), Hclient in Hconn.
  destruct (open_outcome w (_defs_Transport w) d).
  { injection Hconn as <- Htr.
    destruct (Hnone [] (Forall_nil_2 _)). by rewrite app_nil_r. }
  cbn zeta in Hconn. fold (current_version (features c)) in Hconn.
  destruct (semver_match _ required_version) eqn:Hver.
  2: { injection Hconn as <- Htr. destruct (Hnone _ (no_close_2 _ _) Htr). }
  destruct (ping_outcome w _ "" true) as [s|e] eqn:Hping.
  { injection Hconn as <- Htr. destruct (Hnone _ (no_close_3 _ _ _) Htr). }
  destruct (is_Exception e) eqn:Hexc.
  2: { injection Hconn as <- Htr. cbn in Htr.
       destruct (Hnone _ (no_close_3 _ _ _) Htr). }
  injection Hconn as <- Htr. apply app_inv_head in Htr. subst new.
  cbn in Hclose.
  repeat (apply elem_of_cons in Hclose as [Hclose|Hclose];
          [try discriminate|]).
  - simplify_eq. split_and!; [done | done |]. by exists e.
  - by apply elem_of_nil in Hclose.
Qed.

Lemma connect_closes_only_after_ping_failure_witness :
  exists e,
    ping_outcome
      (Fixture.world ∅ Fixture.endpoints (Fixture.features_of 1 4 0)
         (Raise (OtherException "PIN invalid")))
      (with_callbacks
         (with_transport (Fixture.bare_client (Fixture.features_of 1 4 0))
            "hid:0001")
         (passphrase_handler Fixture.faulty) cli_handler)
      "" true = Raise e
    /\ is_Exception e = true
    /\ Raise (A := Client) (OtherException "PIN invalid") = Raise e.
Proof.
  refine (proj2 (proj2 (connect_closes_only_after_ping_failure satisfies
                   (Fixture.world ∅ Fixture.endpoints
                      (Fixture.features_of 1 4 0)
                      (Raise (OtherException "PIN invalid")))
                   Fixture.faulty []
                   [EvOpen "hid:0001"; EvHandshake "hid:0001";
                    EvPing "hid:0001"; EvClose "hid:0001"]
                   (Raise (OtherException "PIN invalid"))
                   "hid:0001" "hid:0001" ["hid:0002"]
                   (Fixture.bare_client (Fixture.features_of 1 4 0))
                   _ _ _ _))).
  - reflexivity.
  - reflexivity.
  - reflexivity.
  - apply (bool_decide_unpack _). vm_compute. exact I.
Defined.

(** ** The transport chosen by the environment *)

(** X12: the bridge transport is used exactly when [TREZOR_TRANSPORT] is
    set to [bridge]; when the variable is unset or has any other value, the
    HID transport is used. *)
Theorem transport_selection (w : World) :
  (_defs_Transport w = BridgeTransport
   <-> environ w !! "TREZOR_TRANSPORT" = Some "bridge")
  /\ (_defs_Transport w = HidTransport
      <-> environ w !! "TREZOR_TRANSPORT" <> Some "bridge").
Proof.
  unfold _defs_Transport.
  destruct (environ w !! "TREZOR_TRANSPORT") as [name|]; cbn.
  - destruct (decide (name = "bridge")) as [->|Hne].
    + rewrite lookup_singleton_eq. cbn. split; split; try done.
    + rewrite lookup_singleton_ne by done. cbn.
      split; split; try done; congruence.
  - split; split; done.
Qed.

(** X13: [connect] enumerates the selected transport only.  With
    [TREZOR_TRANSPORT] set to [bridge] and no bridge endpoint it raises
    [NotFoundError] whatever the HID enumeration holds, and with any other
    setting and no HID endpoint it raises [NotFoundError] whatever the
    bridge enumeration holds. *)
Theorem connect_uses_selected_transport
    (semver_match : string -> string -> bool) (w : World) (self : Trezor)
    (tr : list event) :
  (environ w !! "TREZOR_TRANSPORT" = Some "bridge" ->
   enumerate w BridgeTransport = [] ->
   connect semver_match w self tr
     = (Raise (NotFoundError (self_str self +:+ " not connected")), tr))
  /\ (environ w !! "TREZOR_TRANSPORT" <> Some "bridge" ->
      enumerate w HidTransport = [] ->
      connect semver_match w self tr
        = (Raise (NotFoundError (self_str self +:+ " not connected")), tr)).
Proof.
  destruct (transport_selection w) as [Hbridge Hhid].
  split; intros Henv Hnone.
  - apply Hbridge in Henv. io_unfold. by rewrite Henv, Hnone.
  - apply Hhid in Henv. io_unfold. by rewrite Henv, Hnone.
Qed.

Lemma connect_uses_selected_transport_witness :
  connect satisfies
    {| environ := {[ "TREZOR_TRANSPORT" := "bridge" ]};
       stdin_closed := false;
       stdin_isatty := true;
       enumerate := fun kind =>
         match kind with
         | HidTransport => Fixture.endpoints
         | BridgeTransport => []
         end;
       open_outcome := fun _ _ => None;
       new_client := fun _ =>
         Return (Fixture.bare_client (Fixture.features_of 1 4 0));
       ping_outcome := fun _ _ _ => Return "" |}
    Fixture.faulty []
  = (Raise (NotFoundError "Trezor not connected"), []).
Proof.
  refine (proj1 (connect_uses_selected_transport satisfies _ Fixture.faulty [])
            _ _);
    reflexivity.
Defined.

(** ** The version string *)

Lemma append_cons (c : ascii) (s t : string) :
  String c s +:+ t = String c (s +:+ t).
Proof. reflexivity. Qed.

(** A run of decimal digits in front of [s] stays in the first part of the
    split at dots. *)
Lemma split_on_digits (d : Decimal.uint) (s part : string)
    (parts : list string) :
  split_on "." s = part :: parts ->
  split_on "." (NilEmpty.string_of_uint d +:+ s)
  = (NilEmpty.string_of_uint d +:+ part) :: parts.
Proof.
  intros Hs.
  induction d as [|d IH|d IH|d IH|d IH|d IH|d IH|d IH|d IH|d IH|d IH];
    [exact Hs|..];
    cbn [NilEmpty.string_of_uint]; rewrite !append_cons;
    cbn [split_on]; rewrite decide_False by discriminate;
    by rewrite IH.
Qed.

Lemma split_on_format_N (n : N) (s part : string) (parts : list string) :
  split_on "." s = part :: parts ->
  split_on "." (format_N n +:+ s) = (format_N n +:+ part) :: parts.
Proof.
  intros Hs. unfold format_N, NilZero.string_of_uint.
  destruct (N.to_uint n) as [|d|d|d|d|d|d|d|d|d|d] eqn:Hn.
  1: { rewrite !append_cons. cbn [split_on].
       rewrite decide_False by discriminate. change ("" +:+ s) with s.
       by rewrite Hs. }
  all: by apply split_on_digits.
Qed.

Lemma split_on_dot (s : string) :
  split_on "." ("." +:+ s) = "" :: split_on "." s.
Proof. rewrite append_cons. cbn [split_on]. by rewrite decide_True. Qed.

Lemma parse_N_format_N (n : N) : parse_N (format_N n) = Some n.
Proof.
  unfold parse_N, format_N. rewrite NilZero.usu.
  - cbn. f_equal. apply DecimalN.Unsigned.of_to.
  - destruct n; [discriminate | apply DecimalPos.Unsigned.to_uint_nonnil].
Qed.

Lemma split_on_version (a b c : N) :
  split_on "." (format_N a +:+ "." +:+ format_N b +:+ "." +:+ format_N c)
  = [format_N a; format_N b; format_N c].
Proof.
  assert (forall n, split_on "." (format_N n) = [format_N n]) as Hlast.
  { intros n. rewrite <- (string_app_nil_r (format_N n)) at 1.
    rewrite (split_on_format_N n "" "" []) by reflexivity.
    by rewrite string_app_nil_r. }
  rewrite (split_on_format_N a _ "" [format_N b; format_N c]).
  - by rewrite string_app_nil_r.
  - rewrite split_on_dot. f_equal.
    rewrite (split_on_format_N b _ "" [format_N c]).
    + by rewrite string_app_nil_r.
    + rewrite split_on_dot. f_equal. apply Hlast.
Qed.

Lemma parse_current_version (f : Features) :
  parse_version (current_version f)
  = Some (major_version f, minor_version f, patch_version f).
Proof.
  unfold parse_version, current_version.
  rewrite split_on_version. by rewrite !parse_N_format_N.
Qed.

(** X14: the version string that [connect] builds is the three version
    numbers in decimal, separated by dots: splitting it at the dots and
    reading the numbers gives back the triple, so two feature snapshots with
    the same version string have the same version. *)
Theorem current_version_parses (f : Features) :
  parse_version (current_version f)
  = Some (major_version f, minor_version f, patch_version f)
  /\ (forall f',
        current_version f = current_version f' ->
        major_version f = major_version f'
        /\ minor_version f = minor_version f'
        /\ patch_version f = patch_version f').
Proof.
  split; [apply parse_current_version|].
  intros f' Heq. pose proof (parse_current_version f) as Hf.
  rewrite Heq, parse_current_version in Hf. by simplify_eq.
Qed.

(** With the version matcher above, the gate of [connect] compares the
    version triple with (1, 4, 0). *)
Lemma satisfies_required_version (f : Features) :
  satisfies (current_version f) required_version
  = triple_geb (major_version f, minor_version f, patch_version f)
      (1%N, 4%N, 0%N).
Proof.
  unfold satisfies, required_version.
  by rewrite parse_current_version.
Qed.
